(** * Fleet resolver service ([src/services/fleetService.ts])

    A shallow embedding of the fleet resolver: the three eligibility
    matrices, the vehicle catalog, the ETA estimator [calculateETA], the
    resolver [getFleetOptions] and the reverse lookup
    [getVehicleDisplayInfo], followed by the properties the specification
    states about them; then the click handler of the category screen
    ([AletwendeSend]) that sends the user on to the resolver, and further
    properties of all of these.

    Modelling conventions.
    - A JavaScript string is a [string]: the sequence of bytes of its UTF-8
      encoding.  Every string the code transforms (catalog and matrix
      names) is ASCII, see [names_are_ascii]; all other strings are only
      copied or compared.
    - A JavaScript number is an [N]: every number of this module is a small
      non-negative integer (prices, minutes, array indices), far below the
      range where doubles stop being exact.
    - An object literal is its own properties plus what it inherits from
      [Object.prototype]: the bracket read [obj[key]] looks in both.
    - The promise returned by the [async] function is modelled by the way
      it settles; the fixed 300 ms delay before it is not modelled. *)

From Stdlib Require Import Ascii String.
From stdpp Require Import base strings list gmap pretty.

Local Open Scope string_scope.

(** ** The fragment of JavaScript the module relies on *)

Module JS.

(** What a property read can find on [Object.prototype]: a built-in
    method (its name and its [length]), or, through the [__proto__]
    accessor, [Object.prototype] itself. *)
Inductive builtin :=
| NativeFunction (fname : string) (arity : nat)
| ObjectPrototype.

Definition Object_prototype (key : string) : option builtin :=
  if decide (key = "constructor") then Some (NativeFunction "Object" 1)
  else if decide (key = "hasOwnProperty") then Some (NativeFunction key 1)
  else if decide (key = "isPrototypeOf") then Some (NativeFunction key 1)
  else if decide (key = "propertyIsEnumerable") then Some (NativeFunction key 1)
  else if decide (key = "toLocaleString") then Some (NativeFunction key 0)
  else if decide (key = "toString") then Some (NativeFunction key 0)
  else if decide (key = "valueOf") then Some (NativeFunction key 0)
  else if decide (key = "__defineGetter__") then Some (NativeFunction key 2)
  else if decide (key = "__defineSetter__") then Some (NativeFunction key 2)
  else if decide (key = "__lookupGetter__") then Some (NativeFunction key 1)
  else if decide (key = "__lookupSetter__") then Some (NativeFunction key 1)
  else if decide (key = "__proto__") then Some ObjectPrototype
  else None.

(** A defined value read from an object whose own properties hold [A]s. *)
Inductive found (A : Type) :=
| Own (a : A)
| Inherited (b : builtin).
Global Arguments Own {A} a.
Global Arguments Inherited {A} b.

(** [obj[key]], given the result [own] of looking [key] up among the own
    properties of [obj]; [None] is [undefined]. *)
Definition get {A} (own : option A) (key : string) : option (found A) :=
  match own with
  | Some a => Some (Own a)
  | None => Inherited <$> Object_prototype key
  end.

(** Truthiness of the values of a type. *)
Class Truthy (A : Type) := truthy : A → bool.

Global Instance string_truthy : Truthy string :=
  λ s, bool_decide (s ≠ "").
Global Instance number_truthy : Truthy N :=
  λ n, bool_decide (n ≠ 0%N).
(** Arrays are objects: always truthy, also when empty. *)
Global Instance array_truthy {A} : Truthy (list A) := λ _, true.

(** [x || d] for a possibly-undefined [x] and a default [d], both of
    type [A]. *)
Definition or {A} `{Truthy A} (x : option A) (d : A) : A :=
  match x with
  | Some a => if truthy a then a else d
  | None => d
  end.

(** [obj[key] || d]: built-in functions and objects are truthy. *)
Definition get_or {A} `{Truthy A} (v : option (found A)) (d : A) : found A :=
  match v with
  | Some (Own a) => Own (if truthy a then a else d)
  | Some (Inherited b) => Inherited b
  | None => Own d
  end.

(** [String(b)] for a built-in: the source text of a native function (in
    the rendering of V8), ["[object Object]"] for [Object.prototype]. *)
Definition builtin_to_string (b : builtin) : string :=
  match b with
  | NativeFunction fname _ => "function " +:+ fname +:+ "() { [native code] }"
  | ObjectPrototype => "[object Object]"
  end.

(** The string [`${v + n}`] for a number [n]: numeric addition when [v]
    is a number, string concatenation when it is a built-in. *)
Definition plus_to_string (v : found N) (n : N) : string :=
  match v with
  | Own m => pretty (m + n)%N
  | Inherited b => builtin_to_string b +:+ pretty n
  end.

(** [v.length], [None] being [undefined]. *)
Definition length_of {A} (v : found (list A)) : option nat :=
  match v with
  | Own l => Some (length l)
  | Inherited (NativeFunction _ arity) => Some arity
  | Inherited ObjectPrototype => None
  end.

(** ASCII white space, the part of the class [\s] that one byte holds. *)
Definition is_whitespace (c : ascii) : bool :=
  let n := nat_of_ascii c in
  bool_decide (n = 32 ∨ 9 ≤ n ≤ 13)%nat.

Definition lower (c : ascii) : ascii :=
  let n := nat_of_ascii c in
  if bool_decide (65 ≤ n ≤ 90)%nat then ascii_of_nat (n + 32) else c.

(** [s.toLowerCase()], on ASCII letters. *)
Fixpoint toLowerCase (s : string) : string :=
  match s with
  | EmptyString => EmptyString
  | String c rest => String (lower c) (toLowerCase rest)
  end.

(** [s.replace(/\s+/g, '-')]: every maximal run of white space becomes
    one hyphen.  [in_run] tells that the previous character was white
    space, whose run already produced its hyphen. *)
Fixpoint replace_whitespace_runs (in_run : bool) (s : string) : string :=
  match s with
  | EmptyString => EmptyString
  | String c rest =>
      if is_whitespace c then
        if in_run then replace_whitespace_runs true rest
        else String "-" (replace_whitespace_runs true rest)
      else String c (replace_whitespace_runs false rest)
  end.

Definition is_ascii (s : string) : bool :=
  forallb (λ c, bool_decide (nat_of_ascii c < 128)%nat) (list_ascii_of_string s).

Inductive error := TypeError.

(** How a call of a synchronous function completes. *)
Inductive completion (A : Type) :=
| Return (a : A)
| Throw (e : error).
Global Arguments Return {A} a.
Global Arguments Throw {A} e.

(** How the promise of an [async] function settles: fulfilled with what the
    body returns, rejected with what it throws. *)

Inductive settlement (A : Type) :=
| Fulfilled (a : A)
| Rejected (e : error).
Global Arguments Fulfilled {A} a.
Global Arguments Rejected {A} e.

End JS.

Import JS.

(** ** Data model *)

Inductive Badge := RECOMMENDED | FASTER | CHEAPER.
Inductive Category := recommended | faster | cheaper.

(** [capacity: number | string] *)
Inductive Capacity :=
| CapacityNumber (n : N)
| CapacityText (s : string).

Global Instance capacity_truthy : Truthy Capacity :=
  λ c, match c with
       | CapacityNumber n => truthy n
       | CapacityText s => truthy s
       end.

Record FleetVehicle := {
  id : string;
  name : string;
  description : string;
  eta : string;
  price : N;
  originalPrice : option N;
  capacity : Capacity;
  badge : option Badge;
  icon : string;
  category : Category
}.

(** [Partial<FleetVehicle>]: every field optional. *)
Module Partial.
Record FleetVehicle := {
  id : option string;
  name : option string;
  description : option string;
  eta : option string;
  price : option N;
  originalPrice : option N;
  capacity : option Capacity;
  badge : option Badge;
  icon : option string;
  category : option Category
}.

(** The object literal [{}]. *)
Definition empty : FleetVehicle :=
  {| id := None; name := None; description := None; eta := None;
     price := None; originalPrice := None; capacity := None;
     badge := None; icon := None; category := None |}.

(** An object is truthy. *)
Global Instance object_truthy : Truthy FleetVehicle := λ _, true.
End Partial.

Inductive ServiceType := ride | package | truck | towing.

Definition ServiceType_to_string (serviceType : ServiceType) : string :=
  match serviceType with
  | ride => "ride"
  | package => "package"
  | truck => "truck"
  | towing => "towing"
  end.

(** ** Static tables *)

Definition truckMatrix : gmap string (list string) :=
  list_to_map [
    ("house-shifting", ["1 Ton Truck"; "3 Ton Truck"]);
    ("farm-produce", ["Dropside Truck"; "3 Ton Truck"]);
    ("construction-material", ["3 Ton Truck"; "4 Ton Truck"]);
    ("building-sand", ["Tipper Truck"; "4 Ton Truck"]);
    ("furniture", ["1 Ton Truck"; "Enclosed Truck"]);
    ("bulk-goods", ["4 Ton Truck"; "Dropside Truck"])
  ].

Definition packageMatrix : gmap string (list string) :=
  list_to_map [
    ("0-5kg", ["Bicycle"; "Motorbike"; "Car"]);
    ("5-10kg", ["Motorbike"; "Car"]);
    ("10-20kg", ["Car"; "Small Van"]);
    ("20-50kg", ["Small Van"; "Bakkie"])
  ].

Definition towingMatrix : gmap string (list string) :=
  list_to_map [
    ("sedan", ["Flatbed Tow"; "Standard Tow"]);
    ("suv", ["Heavy Duty Tow"; "Flatbed Tow"]);
    ("bakkie", ["Heavy Duty Tow"; "Flatbed Tow"]);
    ("small-truck", ["Industrial Tow"; "Heavy Duty Tow"]);
    ("van", ["Flatbed Tow"; "Heavy Duty Tow"])
  ].

(** A catalog entry as the literals of [vehicleMetadata] write it. *)
Definition entry (icon capacity description : string) (price originalPrice : N)
  : Partial.FleetVehicle :=
  {| Partial.id := None; Partial.name := None;
     Partial.description := Some description; Partial.eta := None;
     Partial.price := Some price; Partial.originalPrice := Some originalPrice;
     Partial.capacity := Some (CapacityText capacity);
     Partial.badge := None; Partial.icon := Some icon;
     Partial.category := None |}.

(** The catalog, in the order of its literal: [Object.keys] enumerates
    these (non-numeric) keys in insertion order. *)
Definition vehicleMetadata : list (string * Partial.FleetVehicle) := [
  ("1 Ton Truck", entry "🚚" "1 Ton" "Small moves" 180 230);
  ("3 Ton Truck", entry "🚛" "3 Tons" "Medium loads" 280 350);
  ("4 Ton Truck", entry "🚛" "4 Tons" "Heavy loads" 380 480);
  ("Dropside Truck", entry "🚚" "2.5 Tons" "Open sided" 250 310);
  ("Tipper Truck", entry "🚛" "5 Tons" "Tipping bed" 420 520);
  ("Enclosed Truck", entry "🚚" "1.5 Tons" "Protected cargo" 220 280);
  ("Bicycle", entry "🚴" "5kg" "Eco-friendly" 25 35);
  ("Motorbike", entry "🏍️" "10kg" "Fast delivery" 40 55);
  ("Car", entry "🚗" "20kg" "Standard delivery" 60 80);
  ("Small Van", entry "🚐" "50kg" "Larger packages" 90 115);
  ("Bakkie", entry "🛻" "100kg" "Heavy packages" 120 150);
  ("Flatbed Tow", entry "🚛" "Standard" "Most vehicles" 350 450);
  ("Standard Tow", entry "🚗" "Light" "Small cars" 280 350);
  ("Heavy Duty Tow", entry "🚛" "Heavy" "SUVs & Bakkies" 450 570);
  ("Industrial Tow", entry "🚛" "Industrial" "Large vehicles" 600 750)
].

(** [Object.keys(obj)] *)
Definition Object_keys {A} (obj : list (string * A)) : list string := obj.*1.

(** The own property [key] of an object given by its literal. *)
Definition own_property {A} (obj : list (string * A)) (key : string) : option A :=
  (λ found, found.2.2) <$> list_find (λ kv, kv.1 = key) obj.

Definition baseETAs : gmap string N :=
  list_to_map [
    ("Bicycle", 15); ("Motorbike", 5); ("Car", 8); ("Small Van", 12);
    ("Bakkie", 15); ("1 Ton Truck", 20); ("3 Ton Truck", 25);
    ("4 Ton Truck", 30); ("Dropside Truck", 25); ("Tipper Truck", 30);
    ("Enclosed Truck", 20); ("Flatbed Tow", 25); ("Standard Tow", 20);
    ("Heavy Duty Tow", 30); ("Industrial Tow", 35)
  ]%N.

(** ** Operations *)

(** The expression [s.toLowerCase().replace(/\s+/g, '-')], written twice in
    the source: for the [id] of an offer and in the reverse lookup.  The
    code applies it to catalog and matrix names only, which are ASCII; on
    ASCII strings this is the code's function (outside them the code also
    lowers non-ASCII letters and hyphenates non-ASCII white space, which
    the bytes here do not show). *)
Definition slug (s : string) : string :=
  replace_whitespace_runs false (toLowerCase s).

(** [calculateETA(vehicleName, index)].  The function is private to the
    module; its one call passes the position of a name in an array, a
    number below [2 ^ 32], where the addition of the code, made in doubles,
    is the exact one made here. *)
Definition calculateETA (vehicleName : string) (index : nat) : string :=
  let baseTime := get_or (get (baseETAs !! vehicleName) vehicleName) 15%N in
  plus_to_string baseTime (N.of_nat index * 3) +:+ " min".

(** The fields read from [vehicleMetadata[vehicleName] || {}].  A built-in
    found on the prototype chain has none of the fields the resolver reads,
    so that reading them gives [undefined], as on [{}]. *)
Definition metadata_fields (v : found Partial.FleetVehicle) : Partial.FleetVehicle :=
  match v with
  | Own metadata => metadata
  | Inherited _ => Partial.empty
  end.

(** The callback of [vehicleNames.map] in [getFleetOptions]. *)
Definition fleetVehicle (index : nat) (vehicleName : string) : FleetVehicle :=
  let metadata :=
    metadata_fields
      (get_or (get (own_property vehicleMetadata vehicleName) vehicleName)
              Partial.empty) in
  let '(category, badge) :=
    match index with
    | 0 => (recommended, Some RECOMMENDED)
    | 1 => (cheaper, Some CHEAPER)
    | _ => (faster, None)
    end in
  {| id := slug vehicleName;
     name := vehicleName;
     description := or (Partial.description metadata) "Available now";
     eta := calculateETA vehicleName index;
     price := or (Partial.price metadata) 100%N;
     originalPrice := Partial.originalPrice metadata;
     capacity := or (Partial.capacity metadata) (CapacityText "Standard");
     badge := badge;
     icon := or (Partial.icon metadata) "🚗";
     category := category |}.

(** What a call leaves behind: the lines given to [console.warn] and the
    way the returned promise settles. *)
Record Outcome := {
  warnings : list string;
  settled : settlement (list FleetVehicle)
}.

(** The text [`${extraOption}`] of an optional string. *)
Definition option_to_string (extraOption : option string) : string :=
  default "undefined" extraOption.

(** The line [`No vehicles found for ${serviceType} with option:
    ${extraOption}`] given to [console.warn]. *)
Definition no_vehicles_warning (serviceType : ServiceType)
    (extraOption : option string) : string :=
  "No vehicles found for " +:+ ServiceType_to_string serviceType
    +:+ " with option: " +:+ option_to_string extraOption.

(** [getFleetOptions(serviceType, extraOption)] *)
Definition getFleetOptions (serviceType : ServiceType) (extraOption : option string)
  : Outcome :=
  let key := or extraOption "" in
  let resolved : option (found (list string)) :=
    match serviceType with
    | truck => Some (get_or (get (truckMatrix !! key) key) [])
    | package => Some (get_or (get (packageMatrix !! key) key) [])
    | towing => Some (get_or (get (towingMatrix !! key) key) [])
    | ride => None
    end in
  match resolved with
  | None => {| warnings := []; settled := Fulfilled [] |}
  | Some vehicleNames =>
      if decide (length_of vehicleNames = Some 0) then
        {| warnings := [no_vehicles_warning serviceType extraOption];
           settled := Fulfilled [] |}
      else
        match vehicleNames with
        | Own names =>
            {| warnings := []; settled := Fulfilled (imap fleetVehicle names) |}
        | Inherited _ =>
            (* [vehicleNames.map] is [undefined]: calling it throws *)
            {| warnings := []; settled := Rejected TypeError |}
        end
  end.

(** The result type [{ name: string; icon: string }] of the reverse lookup. *)
Record DisplayInfo := {
  display_name : string;
  display_icon : string
}.

(** The literal [{ name: 'Vehicle', icon: '🚗' }] returned when nothing
    matches. *)
Definition placeholder : DisplayInfo :=
  {| display_name := "Vehicle"; display_icon := "🚗" |}.

(** [getVehicleDisplayInfo(vehicleId)].  The function is synchronous: it
    returns, or throws where it reads a field of [undefined]. *)
Definition getVehicleDisplayInfo (vehicleId : string) : completion DisplayInfo :=
  let vehicleName :=
    snd <$> list_find (λ key, slug key = vehicleId) (Object_keys vehicleMetadata) in
  match vehicleName with
  | Some vehicleName =>
      if truthy vehicleName then
        match get (own_property vehicleMetadata vehicleName) vehicleName with
        | Some metadata =>
            Return {| display_name := vehicleName;
                      display_icon := or (Partial.icon (metadata_fields metadata)) "🚗" |}
        | None => Throw TypeError
        end
      else Return placeholder
  | None => Return placeholder
  end.

(** ** Notions used to state the properties *)

(** The pairs the source calls configured: a service type with its own
    matrix, and a key of that matrix with its row. *)
Inductive configured : ServiceType → string → list string → Prop :=
| configured_truck key names :
    truckMatrix !! key = Some names → configured truck key names
| configured_package key names :
    packageMatrix !! key = Some names → configured package key names
| configured_towing key names :
    towingMatrix !! key = Some names → configured towing key names.

(** A vehicle name whose catalog entry and base duration are both present,
    with every field the resolver defaults holding a truthy value. *)
Definition covered (vehicleName : string) : Prop :=
  ∃ metadata description price capacity icon base,
    own_property vehicleMetadata vehicleName = Some metadata
    ∧ Partial.description metadata = Some description ∧ truthy description = true
    ∧ Partial.price metadata = Some price ∧ truthy price = true
    ∧ Partial.capacity metadata = Some capacity ∧ truthy capacity = true
    ∧ Partial.icon metadata = Some icon ∧ truthy icon = true
    ∧ baseETAs !! vehicleName = Some base ∧ truthy base = true.

(** The executable form of [covered]. *)
Definition coveredb (vehicleName : string) : bool :=
  match own_property vehicleMetadata vehicleName, baseETAs !! vehicleName with
  | Some metadata, Some base =>
      match Partial.description metadata, Partial.price metadata,
            Partial.capacity metadata, Partial.icon metadata with
      | Some description, Some price, Some capacity, Some icon =>
          truthy description && truthy price && truthy capacity && truthy icon
          && truthy base
      | _, _, _, _ => false
      end
  | _, _ => false
  end.

(** A row of a matrix as the claims need it: not empty, every name covered. *)
Definition row_ok (names : list string) : bool :=
  bool_decide (names ≠ []) && forallb coveredb names.

Definition matrix_ok (matrix : gmap string (list string)) : bool :=
  forallb (λ row, row_ok row.2) (map_to_list matrix).

(** The badge and category the resolver gives by rank. *)
Definition rank_rule (index : nat) (offer : FleetVehicle) : Prop :=
  match index with
  | 0 => category offer = recommended ∧ badge offer = Some RECOMMENDED
  | 1 => category offer = cheaper ∧ badge offer = Some CHEAPER
  | _ => category offer = faster ∧ badge offer = None
  end.

(** The matrix [getFleetOptions] consults for a service type. *)
Definition matrix_of (serviceType : ServiceType)
  : option (gmap string (list string)) :=
  match serviceType with
  | truck => Some truckMatrix
  | package => Some packageMatrix
  | towing => Some towingMatrix
  | ride => None
  end.

(** The base duration the estimator is meant to use: the entry of the
    table, 15 for a name the table does not have. *)
Definition base_duration (vehicleName : string) : N :=
  default 15%N (baseETAs !! vehicleName).

Global Instance error_eq_dec : EqDecision error.
Proof. solve_decision. Defined.
Global Instance DisplayInfo_eq_dec : EqDecision DisplayInfo.
Proof. solve_decision. Defined.
Global Instance completion_eq_dec {A} `{EqDecision A} : EqDecision (completion A).
Proof. solve_decision. Defined.

(** The round trip of one entry of the catalog, as a check that runs. *)
Definition round_trip (item : string * Partial.FleetVehicle) : bool :=
  match Partial.icon item.2 with
  | Some icon =>
      bool_decide
        (getVehicleDisplayInfo (slug item.1)
         = Return {| display_name := item.1; display_icon := icon |})
  | None => false
  end.

(** ** The category screen ([AletwendeSend]) *)

(** An entry of the [categories] array of the screen.  (The type
    [Category] above is the category tag of an offer.) *)
Record SendCategory := {
  category_id : string;
  label : string;
  category_icon : string;
  color : string;
  category_description : string
}.

Definition categories : list SendCategory := [
  {| category_id := "package"; label := "Send My Package";
     category_icon := "📦";
     color := "bg-gray-50 border-gray-200 hover:border-gray-300";
     category_description := "Safe package delivery" |};
  {| category_id := "foodies"; label := "Foodies";
     category_icon := "🍔";
     color := "bg-pink-50 border-pink-200 hover:border-pink-300";
     category_description := "Food delivery" |};
  {| category_id := "delivery-truck"; label := "Delivery Truck";
     category_icon := "🚚";
     color := "bg-cyan-50 border-cyan-200 hover:border-cyan-300";
     category_description := "Bulk delivery" |};
  {| category_id := "clothes"; label := "Clothes & Others";
     category_icon := "👕";
     color := "bg-blue-50 border-blue-200 hover:border-blue-300";
     category_description := "Shopping delivery" |};
  {| category_id := "towing"; label := "Towing";
     category_icon := "🚗";
     color := "bg-orange-50 border-orange-200 hover:border-orange-300";
     category_description := "Vehicle towing" |};
  {| category_id := "hardware"; label := "Hardware";
     category_icon := "🏗️";
     color := "bg-amber-50 border-amber-200 hover:border-amber-300";
     category_description := "Building materials" |}
].

(** A call [navigate(to)] or [navigate(to, { state: { serviceType } })]. *)
Record Navigation := {
  to : string;
  state_serviceType : option string
}.

(** [handleCategoryClick(categoryId)]: the call of [navigate] it makes,
    [None] when it makes none. *)
Definition handleCategoryClick (categoryId : string) : option Navigation :=
  if decide (categoryId = "foodies") then
    Some {| to := "/shop"; state_serviceType := None |}
  else if decide (categoryId = "package") then
    Some {| to := "/your-route"; state_serviceType := Some "package" |}
  else if decide (categoryId = "towing") then
    Some {| to := "/your-route"; state_serviceType := Some "towing" |}
  else if decide (categoryId = "delivery-truck") then
    Some {| to := "/your-route"; state_serviceType := Some "truck" |}
  else None.

(** ** Further notions used to state the properties *)

(** The property names every object literal inherits. *)
Definition inherited_keys : list string := [
  "constructor"; "hasOwnProperty"; "isPrototypeOf"; "propertyIsEnumerable";
  "toLocaleString"; "toString"; "valueOf"; "__defineGetter__";
  "__defineSetter__"; "__lookupGetter__"; "__lookupSetter__"; "__proto__"
].

(** Those among them whose value does not have [length] 0. *)
Definition rejecting_keys : list string := [
  "constructor"; "hasOwnProperty"; "isPrototypeOf"; "propertyIsEnumerable";
  "__defineGetter__"; "__defineSetter__"; "__lookupGetter__";
  "__lookupSetter__"; "__proto__"
].

(** What [getFleetOptions] does once [vehicleNames] is resolved. *)
Definition outcome_of (serviceType : ServiceType) (extraOption : option string)
    (vehicleNames : found (list string)) : Outcome :=
  if decide (length_of vehicleNames = Some 0) then
    {| warnings := [no_vehicles_warning serviceType extraOption];
       settled := Fulfilled [] |}
  else
    match vehicleNames with
    | Own names =>
        {| warnings := []; settled := Fulfilled (imap fleetVehicle names) |}
    | Inherited _ => {| warnings := []; settled := Rejected TypeError |}
    end.

(** An ASCII capital letter. *)
Definition is_upper (c : ascii) : bool :=
  bool_decide (65 ≤ nat_of_ascii c ≤ 90)%nat.

(** A character a slug can hold: neither white space nor a capital. *)
Definition slug_char (c : ascii) : bool :=
  negb (is_whitespace c) && negb (is_upper c).

Definition slug_chars (s : string) : bool :=
  forallb slug_char (list_ascii_of_string s).

(** A catalog entry whose price is below its original price. *)
Definition discounted (metadata : Partial.FleetVehicle) : bool :=
  match Partial.price metadata, Partial.originalPrice metadata with
  | Some price, Some originalPrice => bool_decide (price < originalPrice)%N
  | _, _ => false
  end.

(** A row of two or three names with pairwise distinct slugs, each name
    with a discounted catalog entry. *)
Definition row_shape (names : list string) : bool :=
  bool_decide (2 ≤ length names ≤ 3)%nat
  && bool_decide (NoDup (slug <$> names))
  && forallb (λ vehicleName,
                match own_property vehicleMetadata vehicleName with
                | Some metadata => discounted metadata
                | None => false
                end) names.

(** The parameter type of [getFleetOptions], read from the string that the
    screen puts in the navigation state. *)
Definition ServiceType_of_string (s : string) : option ServiceType :=
  if decide (s = "ride") then Some ride
  else if decide (s = "package") then Some package
  else if decide (s = "truck") then Some truck
  else if decide (s = "towing") then Some towing
  else None.

(** ** Facts about the JavaScript fragment *)

Section js_facts.
Context {A : Type} `{Truthy A}.

Lemma or_truthy (a d : A) : truthy a = true → or (Some a) d = a.
Proof. intros Ha. unfold or. by rewrite Ha. Qed.

Lemma get_absent key :
  Object_prototype key = None → get (@None A) key = None.
Proof. intros Hkey. unfold get. by rewrite Hkey. Qed.

End js_facts.

(** [extraOption || ""] is the option itself when one is given. *)
Lemma or_empty_string (key : string) : or (Some key) "" = key.
Proof.
  unfold or, truthy, string_truthy. case_bool_decide as Hkey; congruence.
Qed.

(** ** Facts about the static tables *)

Lemma coveredb_covered vehicleName :
  coveredb vehicleName = true → covered vehicleName.
Proof.
  unfold coveredb, covered.
  destruct (own_property _ _) as [metadata|]; [|done].
  destruct (baseETAs !! _) as [base|]; [|done].
  destruct (Partial.description metadata) as [description|] eqn:Hdescription; [|done].
  destruct (Partial.price metadata) as [price|] eqn:Hprice; [|done].
  destruct (Partial.capacity metadata) as [capacity|] eqn:Hcapacity; [|done].
  destruct (Partial.icon metadata) as [icon|] eqn:Hicon; [|done].
  rewrite !andb_true_iff. intros [[[[? ?] ?] ?] ?].
  exists metadata, description, price, capacity, icon, base.
  repeat split; assumption || reflexivity.
Qed.

(** A check run over the entries of a table holds of each entry. *)
Lemma map_to_list_forallb {V} (check : string * V → bool) (table : gmap string V)
    key value :
  forallb check (map_to_list table) = true →
  table !! key = Some value → check (key, value) = true.
Proof.
  rewrite forallb_forall. intros Hall Hentry.
  apply Hall, list_elem_of_In. by apply elem_of_map_to_list.
Qed.

Lemma matrix_ok_row matrix key names :
  matrix_ok matrix = true → matrix !! key = Some names → row_ok names = true.
Proof. apply (map_to_list_forallb (λ row, row_ok row.2)). Qed.

Lemma configured_row_ok serviceType key names :
  configured serviceType key names → row_ok names = true.
Proof.
  destruct 1 as [key names Hrow|key names Hrow|key names Hrow];
    (eapply matrix_ok_row; [|exact Hrow]); by vm_compute.
Qed.

(** ** The resolver on configured selections *)

Lemma row_ok_nonempty names : row_ok names = true → names ≠ [].
Proof. unfold row_ok. rewrite andb_true_iff, bool_decide_eq_true. tauto. Qed.

Lemma row_ok_covered names vehicleName :
  row_ok names = true → vehicleName ∈ names → covered vehicleName.
Proof.
  unfold row_ok. rewrite andb_true_iff, forallb_forall. intros [_ Hall] Hin.
  apply coveredb_covered, Hall. by apply list_elem_of_In.
Qed.

(** The rows of [vehicleNames.map(...)], when [vehicleNames] is a non-empty
    array found in the matrix. *)
Lemma getFleetOptions_configured_eq serviceType key names :
  configured serviceType key names →
  getFleetOptions serviceType (Some key)
  = {| warnings := []; settled := Fulfilled (imap fleetVehicle names) |}.
Proof.
  intros Hconf. pose proof (configured_row_ok _ _ _ Hconf) as Hok.
  apply row_ok_nonempty in Hok.
  unfold getFleetOptions. rewrite or_empty_string.
  destruct Hconf as [key names Hrow|key names Hrow|key names Hrow];
    rewrite Hrow; simpl; (destruct names as [|first others]; [done|]);
    by rewrite decide_False by done.
Qed.

(** Every name is kept, at its place. *)
Lemma fleetVehicle_names names : name <$> imap fleetVehicle names = names.
Proof.
  rewrite fmap_imap. rewrite <-(list_fmap_id names) at 2.
  rewrite <-imap_const. apply imap_ext. intros index vehicleName _.
  unfold fleetVehicle. simpl. by destruct index as [|[|index]].
Qed.

(** A key that is neither configured nor a property of [Object.prototype]
    resolves to nothing. *)
Lemma get_or_unknown (matrix : gmap string (list string)) key :
  matrix !! key = None → Object_prototype key = None →
  get_or (get (matrix !! key) key) [] = Own [].
Proof. intros -> Hkey. by rewrite get_absent. Qed.

(** ** Properties of the resolver *)

(** C1. For every service type among truck, package and towing and every
    sub-option key configured in its matrix, [getFleetOptions] is fulfilled
    with a non-empty list that is as long as the matrix row and whose
    display names are those of the row, in the same order. *)
Theorem getFleetOptions_configured serviceType key names :
  configured serviceType key names →
  ∃ offers,
    settled (getFleetOptions serviceType (Some key)) = Fulfilled offers
    ∧ offers ≠ []
    ∧ length offers = length names
    ∧ name <$> offers = names.
Proof.
  intros Hconf. exists (imap fleetVehicle names).
  rewrite (getFleetOptions_configured_eq _ _ _ Hconf). simpl.
  pose proof (row_ok_nonempty _ (configured_row_ok _ _ _ Hconf)) as Hne.
  split; [done|]. split; [|split].
  - by destruct names.
  - apply length_imap.
  - apply fleetVehicle_names.
Qed.

Lemma getFleetOptions_configured_witness :
  configured towing "small-truck" ["Industrial Tow"; "Heavy Duty Tow"]
  ∧ ∃ offers,
      settled (getFleetOptions towing (Some "small-truck")) = Fulfilled offers
      ∧ offers ≠ []
      ∧ length offers = length ["Industrial Tow"; "Heavy Duty Tow"]
      ∧ name <$> offers = ["Industrial Tow"; "Heavy Duty Tow"].
Proof.
  assert (configured towing "small-truck" ["Industrial Tow"; "Heavy Duty Tow"])
    as Hconf by (constructor; vm_compute; reflexivity).
  split; [exact Hconf|].
  exact (getFleetOptions_configured towing "small-truck" _ Hconf).
Defined.

Lemma fleetVehicle_rank index vehicleName :
  rank_rule index (fleetVehicle index vehicleName).
Proof. by destruct index as [|[|index]]. Qed.

(** Whatever list the resolver is fulfilled with is empty or the image of
    an array of names under the callback. *)
Lemma getFleetOptions_fulfilled serviceType extraOption offers :
  settled (getFleetOptions serviceType extraOption) = Fulfilled offers →
  ∃ names, offers = imap fleetVehicle names.
Proof.
  unfold getFleetOptions.
  destruct serviceType; cbv zeta beta iota;
    [|destruct (get_or _ _) as [names|builtin]; case_decide..];
    cbn [settled]; intros Hsettled; simplify_eq;
    first [by exists [] | by eexists].
Qed.

(** C2. In every list [getFleetOptions] is fulfilled with, the offer at
    index 0 is in category recommended with badge RECOMMENDED, the offer at
    index 1 is in category cheaper with badge CHEAPER, and every offer at
    index 2 or more is in category faster and has no badge. *)
Theorem getFleetOptions_rank serviceType extraOption offers index offer :
  settled (getFleetOptions serviceType extraOption) = Fulfilled offers →
  offers !! index = Some offer →
  (index = 0 → category offer = recommended ∧ badge offer = Some RECOMMENDED)
  ∧ (index = 1 → category offer = cheaper ∧ badge offer = Some CHEAPER)
  ∧ ((2 ≤ index)%nat → category offer = faster ∧ badge offer = None).
Proof.
  intros [names ->]%getFleetOptions_fulfilled.
  intros (vehicleName & _ & ->)%list_lookup_imap_Some.
  pose proof (fleetVehicle_rank index vehicleName) as Hrank.
  destruct index as [|[|index]]; simpl in Hrank;
    (split; [|split]); intros; (done || lia).
Qed.

Lemma getFleetOptions_rank_witness :
  settled (getFleetOptions package (Some "0-5kg"))
  = Fulfilled (imap fleetVehicle ["Bicycle"; "Motorbike"; "Car"])
  ∧ imap fleetVehicle ["Bicycle"; "Motorbike"; "Car"] !! 2
    = Some (fleetVehicle 2 "Car")
  ∧ category (fleetVehicle 2 "Car") = faster
  ∧ badge (fleetVehicle 2 "Car") = None.
Proof.
  assert (settled (getFleetOptions package (Some "0-5kg"))
          = Fulfilled (imap fleetVehicle ["Bicycle"; "Motorbike"; "Car"]))
    as Hsettled by (vm_compute; reflexivity).
  assert (imap fleetVehicle ["Bicycle"; "Motorbike"; "Car"] !! 2
          = Some (fleetVehicle 2 "Car")) as Hthird by reflexivity.
  split; [exact Hsettled|]. split; [exact Hthird|].
  apply (getFleetOptions_rank package (Some "0-5kg") _ 2 _ Hsettled Hthird).
  lia.
Defined.

(** C4. [getFleetOptions("truck", "house-shifting")] is fulfilled with
    exactly two offers, "1 Ton Truck" (price 180, original price 230, eta
    "20 min", badge RECOMMENDED) and "3 Ton Truck" (price 280, original
    price 350, eta "28 min", badge CHEAPER); and
    [getFleetOptions("package", "0-5kg")] with exactly three, "Bicycle",
    "Motorbike" and "Car", with etas "15 min", "8 min" and "14 min" and
    badges RECOMMENDED, CHEAPER and none. *)
Theorem getFleetOptions_scenarios :
  settled (getFleetOptions truck (Some "house-shifting"))
  = Fulfilled [
      {| id := "1-ton-truck"; name := "1 Ton Truck";
         description := "Small moves"; eta := "20 min";
         price := 180; originalPrice := Some 230%N;
         capacity := CapacityText "1 Ton"; badge := Some RECOMMENDED;
         icon := "🚚"; category := recommended |};
      {| id := "3-ton-truck"; name := "3 Ton Truck";
         description := "Medium loads"; eta := "28 min";
         price := 280; originalPrice := Some 350%N;
         capacity := CapacityText "3 Tons"; badge := Some CHEAPER;
         icon := "🚛"; category := cheaper |} ]
  ∧ settled (getFleetOptions package (Some "0-5kg"))
    = Fulfilled [
        {| id := "bicycle"; name := "Bicycle";
           description := "Eco-friendly"; eta := "15 min";
           price := 25; originalPrice := Some 35%N;
           capacity := CapacityText "5kg"; badge := Some RECOMMENDED;
           icon := "🚴"; category := recommended |};
        {| id := "motorbike"; name := "Motorbike";
           description := "Fast delivery"; eta := "8 min";
           price := 40; originalPrice := Some 55%N;
           capacity := CapacityText "10kg"; badge := Some CHEAPER;
           icon := "🏍️"; category := cheaper |};
        {| id := "car"; name := "Car";
           description := "Standard delivery"; eta := "14 min";
           price := 60; originalPrice := Some 80%N;
           capacity := CapacityText "20kg"; badge := None;
           icon := "🚗"; category := faster |} ].
Proof. split; vm_compute; reflexivity. Qed.

(** C5. For the service type ride, [getFleetOptions] is fulfilled with the
    empty list whatever the sub-option key, an absent one included (and
    nothing is logged). *)
Theorem getFleetOptions_ride (extraOption : option string) :
  getFleetOptions ride extraOption
  = {| warnings := []; settled := Fulfilled [] |}.
Proof. reflexivity. Qed.

(** The fail-soft part of the contract that the code keeps: a key that is
    not configured and that names no property of [Object.prototype]
    resolves to the empty list, with a warning. *)
Lemma getFleetOptions_unknown_key serviceType matrix key :
  matrix_of serviceType = Some matrix →
  matrix !! key = None →
  Object_prototype key = None →
  getFleetOptions serviceType (Some key)
  = {| warnings := [no_vehicles_warning serviceType (Some key)];
       settled := Fulfilled [] |}.
Proof.
  intros Hmatrix Hrow Hkey. unfold getFleetOptions. rewrite or_empty_string.
  destruct serviceType; simplify_eq/=; by rewrite get_or_unknown.
Qed.

(** An absent key is read as the empty string, which nothing configures. *)
Lemma getFleetOptions_absent_key serviceType :
  settled (getFleetOptions serviceType None) = Fulfilled [].
Proof. destruct serviceType; vm_compute; reflexivity. Qed.

(** C6 (failing input).  The key "constructor" is configured in no matrix,
    yet the promise of [getFleetOptions("truck", "constructor")] is
    rejected: [truckMatrix["constructor"]] is the inherited function
    [Object], which is truthy, has length 1 and no [map] method. *)
Theorem getFleetOptions_constructor_rejected :
  truckMatrix !! "constructor" = None
  ∧ getFleetOptions truck (Some "constructor")
    = {| warnings := []; settled := Rejected TypeError |}.
Proof. split; vm_compute; reflexivity. Qed.

(** ** The ETA estimator *)

(** No base duration of the table is 0, so that [|| 15] keeps them all. *)
Lemma baseETAs_truthy vehicleName base :
  baseETAs !! vehicleName = Some base → truthy base = true.
Proof.
  apply (map_to_list_forallb (λ row, truthy row.2) baseETAs). by vm_compute.
Qed.


(** For a name of the table, and for a name that is neither in the table
    nor a property of [Object.prototype], the estimate is the base duration
    plus three minutes per rank. *)
Lemma calculateETA_formula vehicleName index :
  is_Some (baseETAs !! vehicleName) ∨ Object_prototype vehicleName = None →
  calculateETA vehicleName index
  = pretty (base_duration vehicleName + N.of_nat index * 3)%N +:+ " min".
Proof.
  unfold calculateETA, base_duration.
  destruct (baseETAs !! vehicleName) as [base|] eqn:Hbase;
    cbn [get get_or default plus_to_string].
  - intros _. by rewrite (baseETAs_truthy _ _ Hbase).
  - intros [[? [=]]|Hkey]. by rewrite Hkey.
Qed.

Lemma list_ascii_of_string_app s t :
  list_ascii_of_string (s +:+ t)
  = (list_ascii_of_string s ++ list_ascii_of_string t)%list.
Proof. induction s as [|c s IH]; [done|]. simpl. by f_equal. Qed.

Lemma list_ascii_of_string_inj s t :
  list_ascii_of_string s = list_ascii_of_string t → s = t.
Proof.
  intros Heq. rewrite <-(string_of_list_ascii_of_string s).
  rewrite <-(string_of_list_ascii_of_string t). by rewrite Heq.
Qed.

(** An estimate names one number of minutes. *)
Lemma minutes_unique (m n : N) :
  pretty m +:+ " min" = pretty n +:+ " min" → m = n.
Proof.
  intros Heq. apply (inj pretty), list_ascii_of_string_inj.
  apply (f_equal list_ascii_of_string) in Heq.
  rewrite !list_ascii_of_string_app in Heq. by apply app_inv_tail in Heq.
Qed.

(** One rank later is exactly three minutes more. *)
Lemma calculateETA_next vehicleName index :
  is_Some (baseETAs !! vehicleName) ∨ Object_prototype vehicleName = None →
  ∃ minutes,
    calculateETA vehicleName index = pretty minutes +:+ " min"
    ∧ calculateETA vehicleName (S index) = pretty (minutes + 3)%N +:+ " min".
Proof.
  intros Hname. exists (base_duration vehicleName + N.of_nat index * 3)%N.
  rewrite !calculateETA_formula by done. split; [done|].
  do 2 f_equal. lia.
Qed.


(** ** The reverse lookup *)

Lemma round_trip_catalog : forallb round_trip vehicleMetadata = true.
Proof. by vm_compute. Qed.

(** C7. For every display name of the catalog, the reverse lookup applied to
    the slug of the name returns that name with the icon of its catalog
    entry; in particular the slug of "3 Ton Truck" is "3-ton-truck", on
    which the lookup returns "3 Ton Truck" with the icon of a lorry. *)
Theorem getVehicleDisplayInfo_round_trip :
  (∀ vehicleName metadata,
     (vehicleName, metadata) ∈ vehicleMetadata →
     ∃ icon,
       Partial.icon metadata = Some icon
       ∧ getVehicleDisplayInfo (slug vehicleName)
         = Return {| display_name := vehicleName; display_icon := icon |})
  ∧ slug "3 Ton Truck" = "3-ton-truck"
  ∧ getVehicleDisplayInfo "3-ton-truck"
    = Return {| display_name := "3 Ton Truck"; display_icon := "🚛" |}.
Proof.
  split; [|split; by vm_compute].
  intros vehicleName metadata Hin%list_elem_of_In.
  pose proof round_trip_catalog as Hall. rewrite forallb_forall in Hall.
  specialize (Hall _ Hin). unfold round_trip in Hall. cbn [fst snd] in Hall.
  destruct (Partial.icon metadata) as [icon|]; [|done].
  exists icon. split; [done|]. by apply bool_decide_eq_true in Hall.
Qed.

Lemma getVehicleDisplayInfo_round_trip_witness :
  ("Bakkie", entry "🛻" "100kg" "Heavy packages" 120 150) ∈ vehicleMetadata
  ∧ ∃ icon,
      Partial.icon (entry "🛻" "100kg" "Heavy packages" 120 150) = Some icon
      ∧ getVehicleDisplayInfo (slug "Bakkie")
        = Return {| display_name := "Bakkie"; display_icon := icon |}.
Proof.
  assert (("Bakkie", entry "🛻" "100kg" "Heavy packages" 120 150)
          ∈ vehicleMetadata) as Hin
    by (apply list_elem_of_In; vm_compute; tauto).
  split; [exact Hin|].
  exact (proj1 getVehicleDisplayInfo_round_trip "Bakkie" _ Hin).
Defined.

(** C8. For every identifier that is the slug of no display name of the
    catalog, the reverse lookup returns the placeholder, "Vehicle" with the
    icon of a car, and does not throw; in particular on "unknown-id". *)
Theorem getVehicleDisplayInfo_unknown :
  (∀ vehicleId,
     (∀ vehicleName,
        vehicleName ∈ Object_keys vehicleMetadata → slug vehicleName ≠ vehicleId) →
     getVehicleDisplayInfo vehicleId = Return placeholder)
  ∧ getVehicleDisplayInfo "unknown-id"
    = Return {| display_name := "Vehicle"; display_icon := "🚗" |}.
Proof.
  split; [|by vm_compute].
  intros vehicleId Hmiss. unfold getVehicleDisplayInfo.
  assert (list_find (λ key, slug key = vehicleId) (Object_keys vehicleMetadata)
          = None) as ->; [|done].
  apply list_find_None, Forall_forall. exact Hmiss.
Qed.

Lemma getVehicleDisplayInfo_unknown_witness :
  (∀ vehicleName,
     vehicleName ∈ Object_keys vehicleMetadata → slug vehicleName ≠ "hovercraft")
  ∧ getVehicleDisplayInfo "hovercraft" = Return placeholder.
Proof.
  assert (Forall (λ vehicleName, slug vehicleName ≠ "hovercraft")
            (Object_keys vehicleMetadata)) as Hall
    by (apply (bool_decide_unpack _); vm_compute; exact I).
  pose proof (proj1 (Forall_forall _ _) Hall) as Hmiss.
  split; [exact Hmiss|].
  exact (proj1 getVehicleDisplayInfo_unknown "hovercraft" Hmiss).
Defined.

(** C9. No two distinct display names among the keys of the catalog have
    the same slug, so that an offer identifier is the slug of at most one
    catalog entry. *)
Theorem slug_unique first second :
  first ∈ Object_keys vehicleMetadata →
  second ∈ Object_keys vehicleMetadata →
  first ≠ second →
  slug first ≠ slug second.
Proof.
  assert (Forall (λ a, Forall (λ b, a ≠ b → slug a ≠ slug b)
                          (Object_keys vehicleMetadata))
            (Object_keys vehicleMetadata)) as Hall
    by (apply (bool_decide_unpack _); by vm_compute).
  intros Hfirst Hsecond. rewrite Forall_forall in Hall.
  specialize (Hall _ Hfirst). rewrite Forall_forall in Hall.
  exact (Hall _ Hsecond).
Qed.

Lemma slug_unique_witness :
  "Car" ∈ Object_keys vehicleMetadata
  ∧ "Bakkie" ∈ Object_keys vehicleMetadata
  ∧ "Car" ≠ "Bakkie"
  ∧ slug "Car" ≠ slug "Bakkie".
Proof.
  assert ("Car" ∈ Object_keys vehicleMetadata) as Hcar
    by (apply list_elem_of_In; vm_compute; tauto).
  assert ("Bakkie" ∈ Object_keys vehicleMetadata) as Hbakkie
    by (apply list_elem_of_In; vm_compute; tauto).
  assert ("Car" ≠ "Bakkie") as Hne by discriminate.
  split; [exact Hcar|]. split; [exact Hbakkie|]. split; [exact Hne|].
  exact (slug_unique "Car" "Bakkie" Hcar Hbakkie Hne).
Defined.

(** ** Coverage of the matrices by the catalog and the table *)

Lemma own_property_key {A} (obj : list (string * A)) key value :
  own_property obj key = Some value → key ∈ Object_keys obj.
Proof.
  unfold own_property, Object_keys.
  intros ([position [key' value']] & Hfind & ->)%fmap_Some.
  apply list_find_Some in Hfind as (Hlookup & <- & _).
  apply list_elem_of_fmap. exists (key', value'). split; [done|].
  by eapply list_elem_of_lookup_2.
Qed.

(** Every name the code lowers and hyphenates is ASCII. *)
Lemma names_are_ascii vehicleName :
  vehicleName ∈ Object_keys vehicleMetadata
  ∨ (∃ serviceType key names,
       configured serviceType key names ∧ vehicleName ∈ names) →
  is_ascii vehicleName = true.
Proof.
  assert (forallb is_ascii (Object_keys vehicleMetadata) = true) as Hall
    by (by vm_compute).
  rewrite forallb_forall in Hall.
  intros [Hkey|(serviceType & key & names & Hconf & Hin)].
  - by apply Hall, list_elem_of_In.
  - apply configured_row_ok in Hconf.
    destruct (row_ok_covered _ _ Hconf Hin) as (metadata & ? & ? & ? & ? & ? & Hown & _).
    by eapply Hall, list_elem_of_In, own_property_key.
Qed.

(** The fields of an offer whose vehicle has a catalog entry. *)
Lemma fleetVehicle_fields index vehicleName metadata :
  own_property vehicleMetadata vehicleName = Some metadata →
  description (fleetVehicle index vehicleName)
  = or (Partial.description metadata) "Available now"
  ∧ price (fleetVehicle index vehicleName) = or (Partial.price metadata) 100%N
  ∧ capacity (fleetVehicle index vehicleName)
    = or (Partial.capacity metadata) (CapacityText "Standard")
  ∧ icon (fleetVehicle index vehicleName) = or (Partial.icon metadata) "🚗"
  ∧ eta (fleetVehicle index vehicleName) = calculateETA vehicleName index.
Proof.
  intros Hown. unfold fleetVehicle. rewrite Hown.
  by destruct index as [|[|index]].
Qed.

(** C10. Every vehicle name of every row of the truck, package and towing
    matrices is a key of the catalog and of the table of base durations,
    with a truthy description, price, capacity, icon and base duration:
    for a configured selection every offer carries the values of its
    catalog entry and an estimate computed from its own base duration, and
    none of the defaults ("Available now", 100, "Standard", the car icon,
    15 minutes) is used. *)
Theorem configured_offers_use_no_default
    serviceType key names offers index offer :
  configured serviceType key names →
  settled (getFleetOptions serviceType (Some key)) = Fulfilled offers →
  offers !! index = Some offer →
  ∃ vehicleName metadata catalog_description catalog_price catalog_capacity
    catalog_icon base,
    names !! index = Some vehicleName
    ∧ own_property vehicleMetadata vehicleName = Some metadata
    ∧ baseETAs !! vehicleName = Some base
    ∧ (Partial.description metadata = Some catalog_description
       ∧ truthy catalog_description = true
       ∧ description offer = catalog_description)
    ∧ (Partial.price metadata = Some catalog_price
       ∧ truthy catalog_price = true
       ∧ price offer = catalog_price)
    ∧ (Partial.capacity metadata = Some catalog_capacity
       ∧ truthy catalog_capacity = true
       ∧ capacity offer = catalog_capacity)
    ∧ (Partial.icon metadata = Some catalog_icon
       ∧ truthy catalog_icon = true
       ∧ icon offer = catalog_icon)
    ∧ (truthy base = true
       ∧ eta offer = pretty (base + N.of_nat index * 3)%N +:+ " min").
Proof.
  intros Hconf Hsettled Hoffer.
  rewrite (getFleetOptions_configured_eq _ _ _ Hconf) in Hsettled.
  cbn [settled] in Hsettled. simplify_eq.
  apply list_lookup_imap_Some in Hoffer as (vehicleName & Hname & ->).
  pose proof (configured_row_ok _ _ _ Hconf) as Hok.
  destruct (row_ok_covered names vehicleName Hok) as
    (metadata & catalog_description & catalog_price & catalog_capacity
     & catalog_icon & base & Hown
     & Hdescription & ? & Hprice & ? & Hcapacity & ? & Hicon & ? & Hbase & ?).
  { by eapply list_elem_of_lookup_2. }
  exists vehicleName, metadata, catalog_description, catalog_price,
    catalog_capacity, catalog_icon, base.
  split; [done|]. split; [done|]. split; [done|].
  destruct (fleetVehicle_fields index _ _ Hown)
    as (-> & -> & -> & -> & ->).
  rewrite Hdescription, Hprice, Hcapacity, Hicon, !or_truthy by done.
  rewrite calculateETA_formula by (left; by rewrite Hbase).
  unfold base_duration. rewrite Hbase. by repeat split.
Qed.

Lemma configured_offers_use_no_default_witness :
  configured towing "sedan" ["Flatbed Tow"; "Standard Tow"]
  ∧ settled (getFleetOptions towing (Some "sedan"))
    = Fulfilled (imap fleetVehicle ["Flatbed Tow"; "Standard Tow"])
  ∧ imap fleetVehicle ["Flatbed Tow"; "Standard Tow"] !! 1
    = Some (fleetVehicle 1 "Standard Tow")
  ∧ ∃ vehicleName metadata catalog_description catalog_price catalog_capacity
      catalog_icon base,
      ["Flatbed Tow"; "Standard Tow"] !! 1 = Some vehicleName
      ∧ own_property vehicleMetadata vehicleName = Some metadata
      ∧ baseETAs !! vehicleName = Some base
      ∧ (Partial.description metadata = Some catalog_description
         ∧ truthy catalog_description = true
         ∧ description (fleetVehicle 1 "Standard Tow") = catalog_description)
      ∧ (Partial.price metadata = Some catalog_price
         ∧ truthy catalog_price = true
         ∧ price (fleetVehicle 1 "Standard Tow") = catalog_price)
      ∧ (Partial.capacity metadata = Some catalog_capacity
         ∧ truthy catalog_capacity = true
         ∧ capacity (fleetVehicle 1 "Standard Tow") = catalog_capacity)
      ∧ (Partial.icon metadata = Some catalog_icon
         ∧ truthy catalog_icon = true
         ∧ icon (fleetVehicle 1 "Standard Tow") = catalog_icon)
      ∧ (truthy base = true
         ∧ eta (fleetVehicle 1 "Standard Tow")
           = pretty (base + N.of_nat 1 * 3)%N +:+ " min").
Proof.
  assert (configured towing "sedan" ["Flatbed Tow"; "Standard Tow"])
    as Hconf by (constructor; vm_compute; reflexivity).
  assert (settled (getFleetOptions towing (Some "sedan"))
          = Fulfilled (imap fleetVehicle ["Flatbed Tow"; "Standard Tow"]))
    as Hsettled by (vm_compute; reflexivity).
  assert (imap fleetVehicle ["Flatbed Tow"; "Standard Tow"] !! 1
          = Some (fleetVehicle 1 "Standard Tow")) as Hsecond by reflexivity.
  split; [exact Hconf|]. split; [exact Hsettled|]. split; [exact Hsecond|].
  exact (configured_offers_use_no_default towing "sedan" _ _ 1 _
           Hconf Hsettled Hsecond).
Defined.

(** ** The resolver on every input *)

Lemma configured_matrix_of serviceType key names :
  configured serviceType key names
  ↔ ∃ matrix, matrix_of serviceType = Some matrix ∧ matrix !! key = Some names.
Proof.
  split.
  - destruct 1; eexists; split; done.
  - intros (matrix & Hmatrix & Hrow).
    destruct serviceType; simplify_eq/=; by constructor.
Qed.

Lemma getFleetOptions_outcome_of serviceType matrix extraOption :
  matrix_of serviceType = Some matrix →
  getFleetOptions serviceType extraOption
  = outcome_of serviceType extraOption
      (get_or (get (matrix !! or extraOption "") (or extraOption "")) []).
Proof. destruct serviceType; intros [= <-]; reflexivity. Qed.

Lemma Object_prototype_inherited key :
  is_Some (Object_prototype key) ↔ key ∈ inherited_keys.
Proof.
  split.
  - intros Hsome. destruct (decide (key ∈ inherited_keys)) as [|Hkey]; [done|].
    destruct Hsome as [b Hb]. revert Hb. unfold Object_prototype.
    repeat (rewrite decide_False;
            [|intros ->; apply Hkey, (bool_decide_unpack _); by vm_compute]).
    done.
  - revert key. apply Forall_forall, (bool_decide_unpack _). by vm_compute.
Qed.

Lemma length_of_inherited key b :
  Object_prototype key = Some b →
  length_of (@Inherited (list string) b) = Some 0 ↔ key ∉ rejecting_keys.
Proof.
  intros Hb.
  assert (key ∈ inherited_keys) as Hkey
    by (apply Object_prototype_inherited; by rewrite Hb).
  assert (forallb (λ k,
            match Object_prototype k with
            | Some b' =>
                bool_decide
                  (length_of (@Inherited (list string) b') = Some 0
                   ↔ k ∉ rejecting_keys)
            | None => true
            end) inherited_keys = true) as Hall by (by vm_compute).
  rewrite forallb_forall in Hall.
  apply list_elem_of_In, Hall in Hkey. rewrite Hb in Hkey.
  by apply bool_decide_eq_true in Hkey.
Qed.

Lemma rejecting_keys_inherited key :
  key ∈ rejecting_keys → key ∈ inherited_keys.
Proof.
  revert key. apply Forall_forall, (bool_decide_unpack _). by vm_compute.
Qed.

(** No matrix has an own property with an inherited name. *)
Lemma matrix_no_inherited serviceType matrix key :
  matrix_of serviceType = Some matrix → key ∈ inherited_keys →
  matrix !! key = None.
Proof.
  intros Hmatrix Hkey.
  assert (Forall (λ k, truckMatrix !! k = None ∧ packageMatrix !! k = None
                       ∧ towingMatrix !! k = None) inherited_keys) as Hall
    by (apply (bool_decide_unpack _); by vm_compute).
  rewrite Forall_forall in Hall. destruct (Hall _ Hkey) as (? & ? & ?).
  by destruct serviceType; simplify_eq/=.
Qed.

(** The four ways a call can go. *)
Lemma getFleetOptions_cases serviceType extraOption :
  (serviceType = ride
   ∧ getFleetOptions serviceType extraOption
     = {| warnings := []; settled := Fulfilled [] |})
  ∨ (∃ names,
       configured serviceType (or extraOption "") names ∧ names ≠ []
       ∧ getFleetOptions serviceType extraOption
         = {| warnings := []; settled := Fulfilled (imap fleetVehicle names) |})
  ∨ (serviceType ≠ ride
     ∧ (∀ names, ¬ configured serviceType (or extraOption "") names)
     ∧ (or extraOption "") ∈ rejecting_keys
     ∧ getFleetOptions serviceType extraOption
       = {| warnings := []; settled := Rejected TypeError |})
  ∨ (serviceType ≠ ride
     ∧ (∀ names, ¬ configured serviceType (or extraOption "") names)
     ∧ ((or extraOption "") ∉ rejecting_keys)
     ∧ getFleetOptions serviceType extraOption
       = {| warnings := [no_vehicles_warning serviceType extraOption];
            settled := Fulfilled [] |}).
Proof.
  destruct (matrix_of serviceType) as [matrix|] eqn:Hmatrix;
    [|left; by destruct serviceType].
  assert (serviceType ≠ ride) as Hride by (by intros ->).
  right. rewrite (getFleetOptions_outcome_of _ _ _ Hmatrix).
  set (key := or extraOption "").
  destruct (matrix !! key) as [names|] eqn:Hrow.
  - left. exists names.
    assert (configured serviceType key names) as Hconf
      by (apply configured_matrix_of; eauto).
    pose proof (row_ok_nonempty _ (configured_row_ok _ _ _ Hconf)) as Hne.
    split; [done|]. split; [done|].
    unfold outcome_of. cbn [get get_or truthy array_truthy length_of].
    rewrite decide_False; [done|]. intros [= Hlen]. by destruct names.
  - right.
    assert (∀ names, ¬ configured serviceType key names) as Hnone.
    { intros names (matrix' & ? & ?)%configured_matrix_of. congruence. }
    destruct (Object_prototype key) as [b|] eqn:Hproto.
    + cbn [get fmap option_fmap option_map get_or].
      rewrite Hproto. cbn [fmap option_fmap option_map get_or].
      pose proof (length_of_inherited key b Hproto) as Hlen.
      unfold outcome_of. case_decide as Hzero.
      * right. split_and!; [done..|by apply Hlen|done].
      * left. split_and!; [done..| |done].
        destruct (decide (key ∈ rejecting_keys)); [done|].
        destruct Hzero. by apply Hlen.
    + right. cbn [get]. rewrite Hproto. split_and!; [done..| |done].
      intros Hkey%rejecting_keys_inherited%Object_prototype_inherited.
      rewrite Hproto in Hkey. by destruct Hkey.
Qed.

Lemma configured_not_ride serviceType key names :
  configured serviceType key names → serviceType ≠ ride.
Proof. by destruct 1. Qed.

Lemma imap_fleetVehicle_nil names : imap fleetVehicle names = [] → names = [].
Proof. by destruct names. Qed.

(** X1. The promise of [getFleetOptions] is rejected exactly when the
    service type is not ride and the key ([""] for an absent one) is one of
    the nine inherited property names whose value is not of length 0. *)
Theorem getFleetOptions_rejected_iff serviceType extraOption :
  settled (getFleetOptions serviceType extraOption) = Rejected TypeError
  ↔ serviceType ≠ ride ∧ (or extraOption "") ∈ rejecting_keys.
Proof.
  destruct (getFleetOptions_cases serviceType extraOption)
    as [(-> & Heq)|[(names & Hconf & Hne & Heq)
       |[(Hride & Hnone & Hkey & Heq)|(Hride & Hnone & Hkey & Heq)]]];
    rewrite Heq; cbn [settled]; split; try done; try tauto.
  intros [_ Hkey%rejecting_keys_inherited].
  apply configured_matrix_of in Hconf as (matrix & Hmatrix & Hrow).
  rewrite (matrix_no_inherited _ _ _ Hmatrix Hkey) in Hrow. done.
Qed.

(** X2. The promise is fulfilled with the empty list exactly when the
    service type is ride, or the key is configured for the service type in
    no row and is not one of the nine rejecting names. *)
Theorem getFleetOptions_empty_iff serviceType extraOption :
  settled (getFleetOptions serviceType extraOption) = Fulfilled []
  ↔ serviceType = ride
    ∨ ((∀ names, ¬ configured serviceType (or extraOption "") names)
       ∧ ((or extraOption "") ∉ rejecting_keys)).
Proof.
  destruct (getFleetOptions_cases serviceType extraOption)
    as [(-> & Heq)|[(names & Hconf & Hne & Heq)
       |[(Hride & Hnone & Hkey & Heq)|(Hride & Hnone & Hkey & Heq)]]];
    rewrite Heq; cbn [settled]; split; try done; try tauto.
  - intros [= Hnil%imap_fleetVehicle_nil]. done.
  - intros [Hride|[Hnone _]];
      [by destruct (configured_not_ride _ _ _ Hconf)|by destruct (Hnone names)].
Qed.

(** X3. A call logs at most one warning, the line naming the service type
    and the option; it logs it exactly when the service type is not ride
    and the promise is fulfilled with the empty list. *)
Theorem getFleetOptions_warnings serviceType extraOption :
  (warnings (getFleetOptions serviceType extraOption) = []
   ∨ warnings (getFleetOptions serviceType extraOption)
     = [no_vehicles_warning serviceType extraOption])
  ∧ (warnings (getFleetOptions serviceType extraOption) ≠ []
     ↔ serviceType ≠ ride
       ∧ settled (getFleetOptions serviceType extraOption) = Fulfilled []).
Proof.
  destruct (getFleetOptions_cases serviceType extraOption)
    as [(-> & Heq)|[(names & Hconf & Hne & Heq)
       |[(Hride & Hnone & Hkey & Heq)|(Hride & Hnone & Hkey & Heq)]]];
    rewrite Heq; cbn [settled warnings];
    (split; [auto|]); split;
    first [ done | tauto | by intros [_ [=]]
          | by intros [_ [= Hnil%imap_fleetVehicle_nil]] ].
Qed.

Lemma disjoint_rows (matrix matrix' : gmap string (list string)) key names names' :
  forallb (λ row, bool_decide (matrix' !! row.1 = None)) (map_to_list matrix)
  = true →
  matrix !! key = Some names → matrix' !! key = Some names' → False.
Proof.
  intros Hall Hrow Hrow'.
  pose proof (map_to_list_forallb _ _ _ _ Hall Hrow) as Hno.
  apply bool_decide_eq_true in Hno. cbn [fst] in Hno. congruence.
Qed.

(** A sub-option key belongs to one service type only. *)
Lemma configured_service_unique serviceType serviceType' key names names' :
  configured serviceType key names →
  configured serviceType' key names' →
  serviceType = serviceType'.
Proof.
  destruct 1 as [key names Hrow|key names Hrow|key names Hrow];
    destruct 1 as [key names' Hrow'|key names' Hrow'|key names' Hrow'];
    first [ reflexivity
          | exfalso; eapply disjoint_rows; [|exact Hrow|exact Hrow'];
            vm_compute; reflexivity ].
Qed.

(** X4. A key configured for one service type gives the empty list under
    every other service type. *)
Theorem getFleetOptions_other_service serviceType serviceType' key names :
  configured serviceType key names →
  serviceType' ≠ serviceType →
  settled (getFleetOptions serviceType' (Some key)) = Fulfilled [].
Proof.
  intros Hconf Hother.
  destruct (getFleetOptions_cases serviceType' (Some key))
    as [(-> & Heq)|[(names' & Hconf' & Hne & Heq)
       |[(Hride & Hnone & Hkey & Heq)|(Hride & Hnone & Hkey & Heq)]]];
    rewrite Heq; cbn [settled]; try done.
  - rewrite or_empty_string in Hconf'.
    by destruct Hother, (configured_service_unique _ _ _ _ _ Hconf' Hconf).
  - rewrite or_empty_string in Hkey. apply rejecting_keys_inherited in Hkey.
    apply configured_matrix_of in Hconf as (matrix & Hmatrix & Hrow).
    rewrite (matrix_no_inherited _ _ _ Hmatrix Hkey) in Hrow. done.
Qed.

Lemma getFleetOptions_other_service_witness :
  configured towing "bakkie" ["Heavy Duty Tow"; "Flatbed Tow"]
  ∧ package ≠ towing
  ∧ settled (getFleetOptions package (Some "bakkie")) = Fulfilled [].
Proof.
  assert (configured towing "bakkie" ["Heavy Duty Tow"; "Flatbed Tow"])
    as Hconf by (constructor; vm_compute; reflexivity).
  assert (package ≠ towing) as Hother by discriminate.
  split; [exact Hconf|]. split; [exact Hother|].
  exact (getFleetOptions_other_service towing package "bakkie" _ Hconf Hother).
Defined.

(** X5. No offer of any fulfilled list carries the badge FASTER, and an
    offer has no badge exactly when its category is faster. *)
Theorem getFleetOptions_badges serviceType extraOption offers offer :
  settled (getFleetOptions serviceType extraOption) = Fulfilled offers →
  offer ∈ offers →
  badge offer ≠ Some FASTER
  ∧ (badge offer = None ↔ category offer = faster).
Proof.
  intros [names ->]%getFleetOptions_fulfilled.
  intros (index & vehicleName & -> & _)%elem_of_lookup_imap.
  pose proof (fleetVehicle_rank index vehicleName) as Hrank.
  destruct index as [|[|index]]; cbn [rank_rule] in Hrank;
    destruct Hrank as [-> ->]; by split.
Qed.

Lemma getFleetOptions_badges_witness :
  settled (getFleetOptions package (Some "0-5kg"))
  = Fulfilled (imap fleetVehicle ["Bicycle"; "Motorbike"; "Car"])
  ∧ fleetVehicle 2 "Car" ∈ imap fleetVehicle ["Bicycle"; "Motorbike"; "Car"]
  ∧ badge (fleetVehicle 2 "Car") ≠ Some FASTER
  ∧ (badge (fleetVehicle 2 "Car") = None
     ↔ category (fleetVehicle 2 "Car") = faster).
Proof.
  assert (settled (getFleetOptions package (Some "0-5kg"))
          = Fulfilled (imap fleetVehicle ["Bicycle"; "Motorbike"; "Car"]))
    as Hsettled by (vm_compute; reflexivity).
  assert (fleetVehicle 2 "Car"
          ∈ imap fleetVehicle ["Bicycle"; "Motorbike"; "Car"]) as Hin
    by (apply (elem_of_lookup_imap_2 fleetVehicle _ "Car" 2); reflexivity).
  split; [exact Hsettled|]. split; [exact Hin|].
  exact (getFleetOptions_badges package (Some "0-5kg") _ _ Hsettled Hin).
Defined.

(** ** Offers of a configured selection *)

Lemma configured_row_shape serviceType key names :
  configured serviceType key names → row_shape names = true.
Proof.
  destruct 1 as [key names Hrow|key names Hrow|key names Hrow];
    (eapply (map_to_list_forallb (λ row, row_shape row.2)); [|exact Hrow]);
    by vm_compute.
Qed.

Lemma configured_offers serviceType key names offers :
  configured serviceType key names →
  settled (getFleetOptions serviceType (Some key)) = Fulfilled offers →
  offers = imap fleetVehicle names.
Proof.
  intros Hconf. rewrite (getFleetOptions_configured_eq _ _ _ Hconf).
  by intros [= <-].
Qed.

Lemma fleetVehicle_ids names : id <$> imap fleetVehicle names = slug <$> names.
Proof.
  rewrite fmap_imap, <-imap_const. apply imap_ext. intros index vehicleName _.
  unfold fleetVehicle. simpl. by destruct index as [|[|index]].
Qed.

(** X6. A configured selection offers two or three vehicles: the first
    carries the badge RECOMMENDED and the second the badge CHEAPER. *)
Theorem configured_offers_count serviceType key names offers :
  configured serviceType key names →
  settled (getFleetOptions serviceType (Some key)) = Fulfilled offers →
  (2 ≤ length offers ≤ 3)%nat
  ∧ ∃ first second,
      offers !! 0 = Some first ∧ badge first = Some RECOMMENDED
      ∧ offers !! 1 = Some second ∧ badge second = Some CHEAPER.
Proof.
  intros Hconf ->%(configured_offers _ _ _ _ Hconf).
  pose proof (configured_row_shape _ _ _ Hconf) as Hshape.
  unfold row_shape in Hshape. rewrite !andb_true_iff in Hshape.
  destruct Hshape as [[Hlen%bool_decide_eq_true _] _].
  rewrite length_imap. split; [done|].
  destruct names as [|first [|second names]]; simpl in Hlen; [lia..|].
  by exists (fleetVehicle 0 first), (fleetVehicle 1 second).
Qed.

Lemma configured_offers_count_witness :
  configured truck "building-sand" ["Tipper Truck"; "4 Ton Truck"]
  ∧ settled (getFleetOptions truck (Some "building-sand"))
    = Fulfilled (imap fleetVehicle ["Tipper Truck"; "4 Ton Truck"])
  ∧ (2 ≤ length (imap fleetVehicle ["Tipper Truck"; "4 Ton Truck"]) ≤ 3)%nat
  ∧ ∃ first second,
      imap fleetVehicle ["Tipper Truck"; "4 Ton Truck"] !! 0 = Some first
      ∧ badge first = Some RECOMMENDED
      ∧ imap fleetVehicle ["Tipper Truck"; "4 Ton Truck"] !! 1 = Some second
      ∧ badge second = Some CHEAPER.
Proof.
  assert (configured truck "building-sand" ["Tipper Truck"; "4 Ton Truck"])
    as Hconf by (constructor; vm_compute; reflexivity).
  assert (settled (getFleetOptions truck (Some "building-sand"))
          = Fulfilled (imap fleetVehicle ["Tipper Truck"; "4 Ton Truck"]))
    as Hsettled by (vm_compute; reflexivity).
  split; [exact Hconf|]. split; [exact Hsettled|].
  exact (configured_offers_count truck "building-sand" _ _ Hconf Hsettled).
Defined.

(** X7. The offers of a configured selection have pairwise distinct
    identifiers. *)
Theorem configured_offers_distinct_ids serviceType key names offers :
  configured serviceType key names →
  settled (getFleetOptions serviceType (Some key)) = Fulfilled offers →
  NoDup (id <$> offers).
Proof.
  intros Hconf ->%(configured_offers _ _ _ _ Hconf).
  pose proof (configured_row_shape _ _ _ Hconf) as Hshape.
  unfold row_shape in Hshape. rewrite !andb_true_iff in Hshape.
  destruct Hshape as [[_ Hnodup%bool_decide_eq_true] _].
  by rewrite fleetVehicle_ids.
Qed.

Lemma configured_offers_distinct_ids_witness :
  configured package "10-20kg" ["Car"; "Small Van"]
  ∧ settled (getFleetOptions package (Some "10-20kg"))
    = Fulfilled (imap fleetVehicle ["Car"; "Small Van"])
  ∧ NoDup (id <$> imap fleetVehicle ["Car"; "Small Van"]).
Proof.
  assert (configured package "10-20kg" ["Car"; "Small Van"])
    as Hconf by (constructor; vm_compute; reflexivity).
  assert (settled (getFleetOptions package (Some "10-20kg"))
          = Fulfilled (imap fleetVehicle ["Car"; "Small Van"]))
    as Hsettled by (vm_compute; reflexivity).
  split; [exact Hconf|]. split; [exact Hsettled|].
  exact (configured_offers_distinct_ids package "10-20kg" _ _ Hconf Hsettled).
Defined.

Lemma own_property_elem {A} (obj : list (string * A)) key value :
  own_property obj key = Some value → (key, value) ∈ obj.
Proof.
  unfold own_property.
  intros ([position [key' value']] & Hfind & ->)%fmap_Some.
  apply list_find_Some in Hfind as (Hlookup & <- & _).
  by eapply list_elem_of_lookup_2.
Qed.

Lemma fleetVehicle_originalPrice index vehicleName metadata :
  own_property vehicleMetadata vehicleName = Some metadata →
  originalPrice (fleetVehicle index vehicleName)
  = Partial.originalPrice metadata.
Proof.
  intros Hown. unfold fleetVehicle. rewrite Hown.
  by destruct index as [|[|index]].
Qed.

(** X8. Every offer of a configured selection has an original price, and
    its price is below it. *)
Theorem configured_offers_discounted serviceType key names offers offer :
  configured serviceType key names →
  settled (getFleetOptions serviceType (Some key)) = Fulfilled offers →
  offer ∈ offers →
  ∃ was, originalPrice offer = Some was ∧ (price offer < was)%N.
Proof.
  intros Hconf ->%(configured_offers _ _ _ _ Hconf).
  intros (index & vehicleName & -> & Hname)%elem_of_lookup_imap.
  apply list_elem_of_lookup_2 in Hname.
  destruct (row_ok_covered names vehicleName (configured_row_ok _ _ _ Hconf) Hname)
    as (metadata & ? & catalog_price & ? & ? & ? & Hown
        & _ & _ & Hprice & Htruthy & _).
  pose proof (configured_row_shape _ _ _ Hconf) as Hshape.
  unfold row_shape in Hshape. rewrite !andb_true_iff, forallb_forall in Hshape.
  destruct Hshape as [_ Hall].
  apply list_elem_of_In, Hall in Hname. rewrite Hown in Hname.
  unfold discounted in Hname. rewrite Hprice in Hname.
  destruct (Partial.originalPrice metadata) as [was|] eqn:Hwas; [|done].
  apply bool_decide_eq_true in Hname. exists was.
  rewrite (fleetVehicle_originalPrice _ _ _ Hown).
  destruct (fleetVehicle_fields index _ _ Hown) as (_ & -> & _).
  by rewrite Hprice, or_truthy.
Qed.

Lemma configured_offers_discounted_witness :
  configured towing "suv" ["Heavy Duty Tow"; "Flatbed Tow"]
  ∧ settled (getFleetOptions towing (Some "suv"))
    = Fulfilled (imap fleetVehicle ["Heavy Duty Tow"; "Flatbed Tow"])
  ∧ fleetVehicle 0 "Heavy Duty Tow"
    ∈ imap fleetVehicle ["Heavy Duty Tow"; "Flatbed Tow"]
  ∧ ∃ was,
      originalPrice (fleetVehicle 0 "Heavy Duty Tow") = Some was
      ∧ (price (fleetVehicle 0 "Heavy Duty Tow") < was)%N.
Proof.
  assert (configured towing "suv" ["Heavy Duty Tow"; "Flatbed Tow"])
    as Hconf by (constructor; vm_compute; reflexivity).
  assert (settled (getFleetOptions towing (Some "suv"))
          = Fulfilled (imap fleetVehicle ["Heavy Duty Tow"; "Flatbed Tow"]))
    as Hsettled by (vm_compute; reflexivity).
  assert (fleetVehicle 0 "Heavy Duty Tow"
          ∈ imap fleetVehicle ["Heavy Duty Tow"; "Flatbed Tow"]) as Hin
    by (apply (elem_of_lookup_imap_2 fleetVehicle _ "Heavy Duty Tow" 0);
        reflexivity).
  split; [exact Hconf|]. split; [exact Hsettled|]. split; [exact Hin|].
  exact (configured_offers_discounted towing "suv" _ _ _ Hconf Hsettled Hin).
Defined.

(** ** The resolver and the reverse lookup together *)

Lemma round_trip_entry vehicleName metadata icon :
  (vehicleName, metadata) ∈ vehicleMetadata →
  Partial.icon metadata = Some icon →
  getVehicleDisplayInfo (slug vehicleName)
  = Return {| display_name := vehicleName; display_icon := icon |}.
Proof.
  intros Hin%list_elem_of_In Hicon.
  pose proof round_trip_catalog as Hall. rewrite forallb_forall in Hall.
  specialize (Hall _ Hin). unfold round_trip in Hall. cbn [fst snd] in Hall.
  rewrite Hicon in Hall. by apply bool_decide_eq_true in Hall.
Qed.

(** X9. The reverse lookup applied to the identifier of an offer of a
    configured selection returns the name and the icon of that offer. *)
Theorem configured_offers_lookup serviceType key names offers offer :
  configured serviceType key names →
  settled (getFleetOptions serviceType (Some key)) = Fulfilled offers →
  offer ∈ offers →
  getVehicleDisplayInfo (id offer)
  = Return {| display_name := name offer; display_icon := icon offer |}.
Proof.
  intros Hconf ->%(configured_offers _ _ _ _ Hconf).
  intros (index & vehicleName & -> & Hname)%elem_of_lookup_imap.
  apply list_elem_of_lookup_2 in Hname.
  destruct (row_ok_covered names vehicleName (configured_row_ok _ _ _ Hconf) Hname)
    as (metadata & ? & ? & ? & catalog_icon & ? & Hown
        & _ & _ & _ & _ & _ & _ & Hicon & Htruthy & _).
  destruct (fleetVehicle_fields index _ _ Hown) as (_ & _ & _ & -> & _).
  rewrite Hicon, or_truthy by done.
  replace (id (fleetVehicle index vehicleName)) with (slug vehicleName)
    by (by destruct index as [|[|index]]).
  replace (name (fleetVehicle index vehicleName)) with vehicleName
    by (by destruct index as [|[|index]]).
  apply (round_trip_entry _ metadata); [|done]. by apply own_property_elem.
Qed.

Lemma configured_offers_lookup_witness :
  configured package "20-50kg" ["Small Van"; "Bakkie"]
  ∧ settled (getFleetOptions package (Some "20-50kg"))
    = Fulfilled (imap fleetVehicle ["Small Van"; "Bakkie"])
  ∧ fleetVehicle 1 "Bakkie" ∈ imap fleetVehicle ["Small Van"; "Bakkie"]
  ∧ getVehicleDisplayInfo (id (fleetVehicle 1 "Bakkie"))
    = Return {| display_name := name (fleetVehicle 1 "Bakkie");
                display_icon := icon (fleetVehicle 1 "Bakkie") |}.
Proof.
  assert (configured package "20-50kg" ["Small Van"; "Bakkie"])
    as Hconf by (constructor; vm_compute; reflexivity).
  assert (settled (getFleetOptions package (Some "20-50kg"))
          = Fulfilled (imap fleetVehicle ["Small Van"; "Bakkie"]))
    as Hsettled by (vm_compute; reflexivity).
  assert (fleetVehicle 1 "Bakkie" ∈ imap fleetVehicle ["Small Van"; "Bakkie"])
    as Hin
    by (apply (elem_of_lookup_imap_2 fleetVehicle _ "Bakkie" 1); reflexivity).
  split; [exact Hconf|]. split; [exact Hsettled|]. split; [exact Hin|].
  exact (configured_offers_lookup package "20-50kg" _ _ _ Hconf Hsettled Hin).
Defined.

(** ** The reverse lookup on every identifier *)

Lemma getVehicleDisplayInfo_miss vehicleId :
  list_find (λ key, slug key = vehicleId) (Object_keys vehicleMetadata) = None →
  getVehicleDisplayInfo vehicleId = Return placeholder.
Proof. intros Hfind. unfold getVehicleDisplayInfo. by rewrite Hfind. Qed.

(** X10. The reverse lookup never throws: on every identifier it returns
    the placeholder, or the name and icon of a catalog entry whose name
    slugs to the identifier. *)
Theorem getVehicleDisplayInfo_returns vehicleId :
  getVehicleDisplayInfo vehicleId = Return placeholder
  ∨ ∃ vehicleName metadata icon,
      (vehicleName, metadata) ∈ vehicleMetadata
      ∧ slug vehicleName = vehicleId
      ∧ Partial.icon metadata = Some icon
      ∧ getVehicleDisplayInfo vehicleId
        = Return {| display_name := vehicleName; display_icon := icon |}.
Proof.
  destruct (list_find (λ key, slug key = vehicleId)
              (Object_keys vehicleMetadata)) as [[position vehicleName]|]
    eqn:Hfind; [right|left; by apply getVehicleDisplayInfo_miss].
  apply list_find_Some in Hfind as (Hkey%list_elem_of_lookup_2 & Hslug & _).
  apply list_elem_of_fmap in Hkey as ([vehicleName' metadata] & -> & Hin).
  cbn [fst] in Hslug.
  pose proof round_trip_catalog as Hall. rewrite forallb_forall in Hall.
  pose proof (Hall _ (proj1 (list_elem_of_In _ _) Hin)) as Hentry.
  unfold round_trip in Hentry. cbn [fst snd] in Hentry.
  destruct (Partial.icon metadata) as [icon|] eqn:Hicon; [|done].
  apply bool_decide_eq_true in Hentry. rewrite Hslug in Hentry.
  by exists vehicleName', metadata, icon.
Qed.

(** ** Slugs *)

Lemma lower_not_upper c : is_upper (lower c) = false.
Proof. destruct c as [[] [] [] [] [] [] [] []]; by vm_compute. Qed.

Lemma lower_fixed c : is_upper c = false → lower c = c.
Proof. unfold lower, is_upper. by intros ->. Qed.

Lemma toLowerCase_no_upper s :
  forallb (λ c, negb (is_upper c)) (list_ascii_of_string (toLowerCase s)) = true.
Proof.
  induction s as [|c s IH]; [done|]. cbn. by rewrite lower_not_upper.
Qed.

Lemma replace_whitespace_runs_chars in_run s :
  forallb (λ c, negb (is_upper c)) (list_ascii_of_string s) = true →
  slug_chars (replace_whitespace_runs in_run s) = true.
Proof.
  unfold slug_chars. revert in_run.
  induction s as [|c s IH]; intros in_run; [done|].
  cbn [list_ascii_of_string forallb replace_whitespace_runs].
  rewrite andb_true_iff. intros [Hc Hs].
  destruct (is_whitespace c) eqn:Hspace; [destruct in_run|];
    cbn [list_ascii_of_string forallb]; rewrite ?IH by done; [done..|].
  unfold slug_char. by rewrite Hspace, Hc.
Qed.

Lemma slug_chars_slug s : slug_chars (slug s) = true.
Proof. apply replace_whitespace_runs_chars, toLowerCase_no_upper. Qed.

Lemma slug_chars_fixed s : slug_chars s = true → slug s = s.
Proof.
  unfold slug, slug_chars. generalize false.
  induction s as [|c s IH]; intros in_run; [done|].
  cbn [list_ascii_of_string forallb toLowerCase replace_whitespace_runs].
  unfold slug_char at 1. rewrite !andb_true_iff, !negb_true_iff.
  intros [[Hspace Hupper] Hs].
  rewrite (lower_fixed _ Hupper), Hspace. f_equal. by apply IH.
Qed.

(** X11. On ASCII strings a slug holds neither white space nor a capital
    letter, and slugging a slug changes nothing. *)
Theorem slug_idempotent s :
  is_ascii s = true →
  slug_chars (slug s) = true ∧ slug (slug s) = slug s.
Proof.
  intros _. split; [apply slug_chars_slug|apply slug_chars_fixed, slug_chars_slug].
Qed.

Lemma slug_idempotent_witness :
  is_ascii "Heavy  Duty Tow" = true
  ∧ slug_chars (slug "Heavy  Duty Tow") = true
  ∧ slug (slug "Heavy  Duty Tow") = slug "Heavy  Duty Tow".
Proof.
  assert (is_ascii "Heavy  Duty Tow" = true) as Hascii by reflexivity.
  split; [exact Hascii|]. exact (slug_idempotent "Heavy  Duty Tow" Hascii).
Defined.

(** X12. An identifier that holds white space or a capital letter, such as
    a display name itself, matches no catalog entry: the reverse lookup
    returns the placeholder. *)
Theorem getVehicleDisplayInfo_not_a_slug vehicleId :
  slug_chars vehicleId = false →
  getVehicleDisplayInfo vehicleId = Return placeholder.
Proof.
  intros Hchars. apply getVehicleDisplayInfo_miss, list_find_None, Forall_forall.
  intros vehicleName _ Hslug.
  pose proof (slug_chars_slug vehicleName) as Hgood.
  rewrite Hslug in Hgood. congruence.
Qed.

Lemma getVehicleDisplayInfo_not_a_slug_witness :
  slug_chars "3 Ton Truck" = false
  ∧ getVehicleDisplayInfo "3 Ton Truck" = Return placeholder.
Proof.
  assert (slug_chars "3 Ton Truck" = false) as Hchars by reflexivity.
  split; [exact Hchars|].
  exact (getVehicleDisplayInfo_not_a_slug "3 Ton Truck" Hchars).
Defined.

(** ** The estimator on the names it is meant for *)

Lemma known_name vehicleName :
  is_Some (baseETAs !! vehicleName) ∨ vehicleName ∉ inherited_keys →
  is_Some (baseETAs !! vehicleName) ∨ Object_prototype vehicleName = None.
Proof.
  intros [?|Hkey]; [by left|right].
  apply eq_None_not_Some. by rewrite Object_prototype_inherited.
Qed.



(** X13. For a vehicle name that has a base duration in the table, and for
    one that is neither in the table nor an inherited property name, two
    different ranks that are array indices never get the same estimate. *)
Theorem calculateETA_rank_injective vehicleName index index' :
  is_Some (baseETAs !! vehicleName) ∨ vehicleName ∉ inherited_keys →
  (N.of_nat index < 2 ^ 32)%N →
  (N.of_nat index' < 2 ^ 32)%N →
  index' ≠ index →
  calculateETA vehicleName index' ≠ calculateETA vehicleName index.
Proof.
  intros Hname%known_name _ _ Hrank. rewrite !calculateETA_formula by done.
  intros Hsame%minutes_unique. lia.
Qed.

Lemma calculateETA_rank_injective_witness :
  (is_Some (baseETAs !! "Hovercraft") ∨ "Hovercraft" ∉ inherited_keys)
  ∧ (N.of_nat 0 < 2 ^ 32)%N
  ∧ (N.of_nat 2 < 2 ^ 32)%N
  ∧ 2 ≠ 0
  ∧ calculateETA "Hovercraft" 2 ≠ calculateETA "Hovercraft" 0.
Proof.
  assert (is_Some (baseETAs !! "Hovercraft") ∨ "Hovercraft" ∉ inherited_keys)
    as Hname by (right; apply (bool_decide_unpack _); vm_compute; exact I).
  assert (N.of_nat 0 < 2 ^ 32)%N as Hfirst by (vm_compute; reflexivity).
  assert (N.of_nat 2 < 2 ^ 32)%N as Hthird by (vm_compute; reflexivity).
  assert (2 ≠ 0) as Hrank by lia.
  split; [exact Hname|]. split; [exact Hfirst|]. split; [exact Hthird|].
  split; [exact Hrank|].
  exact (calculateETA_rank_injective "Hovercraft" 0 2 Hname Hfirst Hthird Hrank).
Defined.

(** X14. For a vehicle name without an entry of its own in the catalog the
    callback falls back on every default: description "Available now",
    price 100, no original price, capacity "Standard" and the car icon. *)
Theorem fleetVehicle_defaults index vehicleName :
  own_property vehicleMetadata vehicleName = None →
  description (fleetVehicle index vehicleName) = "Available now"
  ∧ price (fleetVehicle index vehicleName) = 100%N
  ∧ originalPrice (fleetVehicle index vehicleName) = None
  ∧ capacity (fleetVehicle index vehicleName) = CapacityText "Standard"
  ∧ icon (fleetVehicle index vehicleName) = "🚗".
Proof.
  intros Hown. unfold fleetVehicle. rewrite Hown. unfold get.
  by destruct (Object_prototype vehicleName), index as [|[|index]].
Qed.

Lemma fleetVehicle_defaults_witness :
  own_property vehicleMetadata "Hovercraft" = None
  ∧ description (fleetVehicle 0 "Hovercraft") = "Available now"
  ∧ price (fleetVehicle 0 "Hovercraft") = 100%N
  ∧ originalPrice (fleetVehicle 0 "Hovercraft") = None
  ∧ capacity (fleetVehicle 0 "Hovercraft") = CapacityText "Standard"
  ∧ icon (fleetVehicle 0 "Hovercraft") = "🚗".
Proof.
  assert (own_property vehicleMetadata "Hovercraft" = None) as Hown
    by (vm_compute; reflexivity).
  split; [exact Hown|]. exact (fleetVehicle_defaults 0 "Hovercraft" Hown).
Defined.

(** ** The category screen *)

(** X15. Whenever a click navigates to the route screen, the navigation
    state carries the name of a service type that has an eligibility
    matrix: package, towing or truck, never ride. *)
Theorem handleCategoryClick_service categoryId navigation :
  handleCategoryClick categoryId = Some navigation →
  to navigation = "/your-route" →
  ∃ serviceType matrix,
    state_serviceType navigation = Some (ServiceType_to_string serviceType)
    ∧ ServiceType_of_string (ServiceType_to_string serviceType) = Some serviceType
    ∧ matrix_of serviceType = Some matrix.
Proof.
  unfold handleCategoryClick.
  repeat case_decide; intros [= <-]; cbn [to state_serviceType]; [done|..];
    intros _;
    [exists package, packageMatrix|exists towing, towingMatrix
    |exists truck, truckMatrix]; done.
Qed.

Lemma handleCategoryClick_service_witness :
  handleCategoryClick "delivery-truck"
  = Some {| to := "/your-route"; state_serviceType := Some "truck" |}
  ∧ to {| to := "/your-route"; state_serviceType := Some "truck" |}
    = "/your-route"
  ∧ ∃ serviceType matrix,
      state_serviceType {| to := "/your-route"; state_serviceType := Some "truck" |}
      = Some (ServiceType_to_string serviceType)
      ∧ ServiceType_of_string (ServiceType_to_string serviceType)
        = Some serviceType
      ∧ matrix_of serviceType = Some matrix.
Proof.
  assert (handleCategoryClick "delivery-truck"
          = Some {| to := "/your-route"; state_serviceType := Some "truck" |})
    as Hclick by reflexivity.
  assert (to {| to := "/your-route"; state_serviceType := Some "truck" |}
          = "/your-route") as Hto by reflexivity.
  split; [exact Hclick|]. split; [exact Hto|].
  exact (handleCategoryClick_service "delivery-truck" _ Hclick Hto).
Defined.

(** X16. Among the six categories of the screen, a click navigates for
    all but two: on "clothes" and on "hardware" the handler does nothing. *)
Theorem handleCategoryClick_categories category :
  category ∈ categories →
  handleCategoryClick (category_id category) = None
  ↔ category_id category ∈ ["clothes"; "hardware"].
Proof.
  revert category. apply Forall_forall, (bool_decide_unpack _). by vm_compute.
Qed.

Lemma handleCategoryClick_categories_witness :
  {| category_id := "hardware"; label := "Hardware";
     category_icon := "🏗️";
     color := "bg-amber-50 border-amber-200 hover:border-amber-300";
     category_description := "Building materials" |} ∈ categories
  ∧ (handleCategoryClick "hardware" = None
     ↔ "hardware" ∈ ["clothes"; "hardware"]).
Proof.
  assert ({| category_id := "hardware"; label := "Hardware";
             category_icon := "🏗️";
             color := "bg-amber-50 border-amber-200 hover:border-amber-300";
             category_description := "Building materials" |} ∈ categories)
    as Hin by (apply list_elem_of_In; vm_compute; tauto).
  split; [exact Hin|]. exact (handleCategoryClick_categories _ Hin).
Defined.
